(** * AUMSecurity front-end: session store, route guard and enrollment workflow

    A shallow embedding of [frontend/src/App.tsx],
    [frontend/src/components/Dashboard.tsx] and
    [frontend/src/components/Login.tsx].

    - React state cells ([useState]) are fields of a record; a state setter
      is a record update, observed after the re-render that follows it.
    - [localStorage] and [axios.defaults.headers.common] are JavaScript
      objects used as string-keyed maps: [gmap string string].
    - [string | null] is [option string]; JavaScript truthiness and
      template literals are written out in module [JS].
    - An [await] on the network splits a handler into the part that runs
      before the request and the part that resumes on the response; the
      server's answer is an input of the second part.
    - Everything a handler does to the outside (HTTP requests, console
      output, navigation) is collected in a list of [effect]s. *)

From Stdlib Require Import QArith.
From stdpp Require Import gmap strings list fin_maps pretty.

Open Scope string_scope.
Open Scope list_scope.

(** ** JavaScript value conventions used by the source *)

Module JS.

(** Truthiness of a [string | null] value: [null] and the empty string
    are falsy, every other string is truthy. *)
Definition truthy (v : option string) : bool :=
  match v with
  | None => false
  | Some s => negb (String.eqb s "")
  end.

(** [`${v}`] for a [string | null] value. *)
Definition interpolate (v : option string) : string :=
  match v with
  | None => "null"
  | Some s => s
  end.

(** [v || d] where [v] is a possibly missing string. *)
Definition or_else (v : option string) (d : string) : string :=
  match v with
  | Some s => if String.eqb s "" then d else s
  | None => d
  end.

End JS.

(** ** App.tsx: the session store *)

(** The mutable cells [App] reads and writes: the browser's [localStorage],
    axios' default headers, and the two [useState] cells. *)
Record World := mkWorld {
  localStorage : gmap string string;
  axiosCommon  : gmap string string;   (* axios.defaults.headers.common *)
  token        : option string;
  role         : option string
}.

(** First render of [App] in a fresh page: the axios module has just been
    loaded (no default [Authorization] header), and both state cells are
    initialised from [localStorage.getItem]. *)
Definition App_init (ls : gmap string string) : World :=
  {| localStorage := ls;
     axiosCommon  := ∅;
     token        := ls !! "token";
     role         := ls !! "role" |}.

Definition login (newToken newRole : string) (w : World) : World :=
  {| token        := Some newToken;
     role         := Some newRole;
     localStorage := <["role" := newRole]> (<["token" := newToken]> (localStorage w));
     axiosCommon  := <["Authorization" := "Bearer " +:+ newToken]> (axiosCommon w) |}.

Definition logout (w : World) : World :=
  {| token        := None;
     role         := None;
     localStorage := delete "role" (delete "token" (localStorage w));
     axiosCommon  := delete "Authorization" (axiosCommon w) |}.

(** A page reload keeps [localStorage] and nothing else. *)
Definition reload (w : World) : World := App_init (localStorage w).

(** What the [AuthContext] consumers read. *)
Definition getSession (w : World) : option string * option string :=
  (token w, role w).

(** The session operations a process can go through. *)
Inductive action :=
| Login (t r : string)
| Logout
| Reload.

Definition step (w : World) (a : action) : World :=
  match a with
  | Login t r => login t r w
  | Logout => logout w
  | Reload => reload w
  end.

Definition run (w : World) (acts : list action) : World :=
  foldl step w acts.

(** Both present or both absent. *)
Definition paired {A B : Type} (x : option A) (y : option B) : Prop :=
  is_Some x ↔ is_Some y.

Definition session_paired (w : World) : Prop := paired (token w) (role w).

Definition storage_paired (ls : gmap string string) : Prop :=
  paired (ls !! "token") (ls !! "role").

(** ** App.tsx: the route table *)

Inductive element :=
| LoginView
| DashboardView
| NavigateTo (to : string).

(** The three [<Route>] entries, with their [element] expressions. *)
Definition routes (tok : option string) : list (string * element) :=
  [ ("/login",     if negb (JS.truthy tok) then LoginView else NavigateTo "/dashboard");
    ("/dashboard", if JS.truthy tok then DashboardView else NavigateTo "/login");
    ("/",          NavigateTo (if JS.truthy tok then "/dashboard" else "/login")) ].

Fixpoint match_route (path : string) (rs : list (string * element)) : option element :=
  match rs with
  | [] => None
  | (p, e) :: rs' => if String.eqb p path then Some e else match_route path rs'
  end.

(** The guard: what [<Routes>] yields for a location, given the session. *)
Definition guard (path : string) (w : World) : option element :=
  match_route path (routes (token w)).

(** Following [<Navigate>] until a view is rendered. *)
Fixpoint settle (fuel : nat) (path : string) (w : World) : option element :=
  match guard path w with
  | Some (NavigateTo to) =>
      match fuel with
      | O => Some (NavigateTo to)
      | S n => settle n to w
      end
  | r => r
  end.

(** ** The HTTP boundary (axios) *)

Inductive httpMethod := GET | POST.

Inductive File := mkFile (fileName : string).

(** One entry of a [FormData] payload. *)
Inductive part :=
| Text (s : string)
| Blob (f : File).

Record request := mkRequest {
  method  : httpMethod;
  url     : string;
  headers : gmap string string;
  body    : list (string * part)
}.

(** [axios.get(url)]: no headers of its own, so the request carries
    exactly the defaults. *)
Definition axios_get (common : gmap string string) (u : string) : request :=
  {| method := GET; url := u; headers := common; body := [] |}.

(** [axios.post(url, data, { headers })]: the headers of the call override
    the defaults key by key. [headers] is the header set the call is made
    with; what the transport does to it afterwards (the [Content-Type] of a
    [FormData] body goes out with a boundary chosen by the browser) is not
    part of it. *)
Definition axios_post (common : gmap string string) (u : string)
    (data : list (string * part)) (hs : gmap string string) : request :=
  {| method := POST; url := u; headers := hs ∪ common; body := data |}.

(** The error object seen by a [catch]: [err.response?.data?.detail]. *)
Record errBody := mkErrBody { detail : option string }.
Record errResponse := mkErrResponse { data : option errBody }.
Record AxiosError := mkAxiosError { response : option errResponse }.

Inductive settled (A : Type) :=
| Fulfilled (a : A)
| Rejected (e : AxiosError).
Arguments Fulfilled {A} a.
Arguments Rejected {A} e.

Definition err_detail (e : AxiosError) : option string :=
  r ← response e; b ← data r; detail b.

(** What a handler does to the outside world. *)
Inductive effect :=
| Request (r : request)
| ConsoleError (label : string)
| Navigate (to : string).

Definition requests_of (es : list effect) : list request :=
  omap (λ e, match e with Request r => Some r | _ => None end) es.

Definition bearer (r : request) : option string := headers r !! "Authorization".

(** ** Dashboard.tsx *)

Record Person := mkPerson {
  person_id       : Z;
  person_name     : string;
  person_category : string;
  person_expiry   : option string;
  person_contact  : option string
}.

Record Event := mkEvent {
  event_id         : Z;
  event_category   : string;
  event_similarity : option Q;   (* a JS number, here a rational *)
  event_timestamp  : string
}.

Record Form := mkForm {
  name     : string;
  category : string;
  expiry   : string;
  contact  : string
}.

(** The [useState] cells of [Dashboard]. *)
Record Dash := mkDash {
  persons : list Person;
  events  : list Event;
  form    : Form;
  file    : option File;
  message : string;
  loading : bool
}.

Definition defaultForm : Form :=
  {| name := ""; category := "Family"; expiry := ""; contact := "" |}.

Definition Dashboard_init : Dash :=
  {| persons := []; events := []; form := defaultForm;
     file := None; message := ""; loading := false |}.

Definition setPersons (ps : list Person) (d : Dash) : Dash :=
  {| persons := ps; events := events d; form := form d;
     file := file d; message := message d; loading := loading d |}.

Definition setEvents (es : list Event) (d : Dash) : Dash :=
  {| persons := persons d; events := es; form := form d;
     file := file d; message := message d; loading := loading d |}.

Definition setForm (f : Form) (d : Dash) : Dash :=
  {| persons := persons d; events := events d; form := f;
     file := file d; message := message d; loading := loading d |}.

Definition setFile (fl : option File) (d : Dash) : Dash :=
  {| persons := persons d; events := events d; form := form d;
     file := fl; message := message d; loading := loading d |}.

Definition setMessage (m : string) (d : Dash) : Dash :=
  {| persons := persons d; events := events d; form := form d;
     file := file d; message := m; loading := loading d |}.

Definition setLoading (b : bool) (d : Dash) : Dash :=
  {| persons := persons d; events := events d; form := form d;
     file := file d; message := message d; loading := b |}.

(** [fetchPersons]: [rp] is how [GET /persons] settles. *)
Definition fetchPersons (common : gmap string string)
    (rp : settled (list Person)) (d : Dash) : Dash * list effect :=
  let req := Request (axios_get common "/persons") in
  match rp with
  | Fulfilled ps => (setPersons ps d, [req])
  | Rejected _ => (d, [req; ConsoleError "Error fetching persons:"])
  end.

Definition fetchEvents (common : gmap string string)
    (re : settled (list Event)) (d : Dash) : Dash * list effect :=
  let req := Request (axios_get common "/events") in
  match re with
  | Fulfilled es => (setEvents es d, [req])
  | Rejected _ => (d, [req; ConsoleError "Error fetching events:"])
  end.

(** The [useEffect] body, run when [Dashboard] is entered: [navigate] is
    followed by both fetches, with no [return] in between. Both requests
    leave before either settles; the list keeps the effects of each fetch
    together, and only the order of the requests among themselves is
    meant. *)
Definition Dashboard_useEffect (tok : option string) (common : gmap string string)
    (rp : settled (list Person)) (re : settled (list Event)) (d : Dash)
    : Dash * list effect :=
  let nav := if negb (JS.truthy tok) then [Navigate "/login"] else [] in
  let '(d1, e1) := fetchPersons common rp d in
  let '(d2, e2) := fetchEvents common re d1 in
  (d2, nav ++ e1 ++ e2).

(** [handleInputChange]: [{ ...prev, [name]: value }] for the four inputs
    of the form. *)
Definition handleInputChange (field value : string) (d : Dash) : Dash :=
  let f := form d in
  if String.eqb field "name" then
    setForm {| name := value; category := category f; expiry := expiry f; contact := contact f |} d
  else if String.eqb field "category" then
    setForm {| name := name f; category := value; expiry := expiry f; contact := contact f |} d
  else if String.eqb field "expiry" then
    setForm {| name := name f; category := category f; expiry := value; contact := contact f |} d
  else if String.eqb field "contact" then
    setForm {| name := name f; category := category f; expiry := expiry f; contact := value |} d
  else d.

(** [handleFileChange]: [files] is [e.target.files]; [files[0]] of an empty
    list is [undefined], as falsy as [null]. *)
Definition handleFileChange (files : option (list File)) (d : Dash) : Dash :=
  match files with
  | Some fs => setFile (head fs) d
  | None => d
  end.

Definition nonempty (s : string) : bool := negb (String.eqb s "").

(** The multi-part payload built by [handleEnroll]. *)
Definition enroll_formData (f : Form) (fl : File) : list (string * part) :=
  [("name", Text (name f)); ("category", Text (category f))]
  ++ (if nonempty (expiry f) then [("expiry", Text (expiry f))] else [])
  ++ (if nonempty (contact f) then [("contact", Text (contact f))] else [])
  ++ [("file", Blob fl)].

Definition enroll_headers (tok : option string) : gmap string string :=
  <["Authorization" := "Bearer " +:+ JS.interpolate tok]>
    {["Content-Type" := "multipart/form-data"]}.

Definition enroll_request (tok : option string) (common : gmap string string)
    (f : Form) (fl : File) : request :=
  axios_post common "/enroll" (enroll_formData f fl) (enroll_headers tok).

Record enrollData := mkEnrollData { enroll_message : string }.

Definition enroll_error_message (e : AxiosError) : string :=
  "Error: " +:+ JS.or_else (err_detail e) "Enrollment failed".

(** [handleEnroll] up to its [await]: either the early [return] with the
    local message, or the request that goes out, with the state as it is
    while the request is in flight. *)
Definition handleEnroll_begin (tok : option string) (common : gmap string string)
    (d : Dash) : Dash * option request :=
  match file d with
  | None => (setMessage "Please select an image file" d, None)
  | Some fl =>
      (setMessage "" (setLoading true d),
       Some (enroll_request tok common (form d) fl))
  end.

(** [handleEnroll] after its [await]: [try] continuation or [catch], then
    [finally]. [rp] is how the re-fetch of the roster settles. *)
Definition handleEnroll_resume (common : gmap string string)
    (ans : settled enrollData) (rp : settled (list Person)) (d : Dash)
    : Dash * list effect :=
  match ans with
  | Fulfilled r =>
      let d1 := setFile None (setForm defaultForm (setMessage (enroll_message r) d)) in
      let '(d2, es) := fetchPersons common rp d1 in
      (setLoading false d2, es)
  | Rejected e =>
      (setLoading false (setMessage (enroll_error_message e) d), [])
  end.

Definition handleEnroll (tok : option string) (common : gmap string string)
    (ans : settled enrollData) (rp : settled (list Person)) (d : Dash)
    : Dash * list effect :=
  match handleEnroll_begin tok common d with
  | (d1, None) => (d1, [])
  | (d1, Some req) =>
      let '(d2, es) := handleEnroll_resume common ans rp d1 in
      (d2, Request req :: es)
  end.

(** The [<form onSubmit={handleEnroll}>] as the browser drives it: the name
    input (bound to [form.name]) and the file input (not bound to any state
    cell; [picked] is what it holds) are both [required], and the submit
    event is only dispatched when both are filled. *)
Definition checkValidity (d : Dash) (picked : option File) : bool :=
  nonempty (name (form d)) && bool_decide (is_Some picked).

Definition form_submit (picked : option File)
    (tok : option string) (common : gmap string string)
    (ans : settled enrollData) (rp : settled (list Person)) (d : Dash)
    : Dash * list effect :=
  if checkValidity d picked then handleEnroll tok common ans rp d
  else (d, []).

(** The message the specification expects for a failed enrollment: the
    server's detail itself when there is one. *)
Definition spec_enroll_failure_message (e : AxiosError) (generic : string) : string :=
  match err_detail e with
  | Some s => s
  | None => generic
  end.

(** ** Login.tsx *)

Record LoginState := mkLoginState {
  username : string;
  password : string;
  error    : string
}.

Definition Login_init : LoginState :=
  {| username := "admin"; password := "password123"; error := "" |}.

Record tokenData := mkTokenData { access_token : string; token_role : string }.

Definition token_request (common : gmap string string) (l : LoginState) : request :=
  axios_post common "/token"
    [("username", Text (username l)); ("password", Text (password l))]
    {["Content-Type" := "application/x-www-form-urlencoded"]}.

(** [handleSubmit] of the login form; [ans] is how [POST /token] settles. *)
Definition Login_handleSubmit (ans : settled tokenData) (l : LoginState) (w : World)
    : LoginState * World * list effect :=
  let req := Request (token_request (axiosCommon w) l) in
  match ans with
  | Fulfilled r =>
      (l, login (access_token r) (token_role r) w, [req; Navigate "/dashboard"])
  | Rejected _ =>
      ({| username := username l; password := password l;
          error := "Invalid credentials" |}, w, [req])
  end.

(** The claims of the specification, in its own words, for comparison with
    what the code does. *)

(** A session is present when its token is (not [null]). *)
Definition session_present (w : World) : Prop := is_Some (token w).

(** Route guard, as specified: admission decided by session presence. *)
Definition spec_guard (w : World) : Prop :=
  (guard "/login" w = Some LoginView ↔ ¬ session_present w)
  ∧ (guard "/dashboard" w = Some DashboardView ↔ session_present w)
  ∧ (session_present w → guard "/" w = Some (NavigateTo "/dashboard"))
  ∧ (¬ session_present w → guard "/" w = Some (NavigateTo "/login")).

(** Enrollment validation, as specified: an empty name or a missing file
    stops the submission before any request, with a message. *)
Definition spec_validation (d : Dash) : Prop :=
  name (form d) = "" ∨ file d = None →
  ∀ tok common ans rp,
    requests_of (handleEnroll tok common ans rp d).2 = []
    ∧ message (handleEnroll tok common ans rp d).1 ≠ "".

(** What every step of the session store preserves: the two cells agree
    and the two storage entries agree. *)
Record consistent (w : World) : Prop := {
  cons_session : session_paired w;
  cons_storage : storage_paired (localStorage w)
}.

(** A default [Authorization] header is only there for the token in
    memory. *)
Definition header_of_token (w : World) : Prop :=
  ∀ h, axiosCommon w !! "Authorization" = Some h →
       ∃ t, token w = Some t ∧ h = "Bearer " +:+ t.

(** The session after a successful credential exchange that returned an
    empty [access_token]. *)
Definition empty_token_session : World :=
  (Login_handleSubmit
     (Fulfilled {| access_token := ""; token_role := "operator" |})
     Login_init (App_init ∅)).1.2.

(** A browser that holds the entries of an earlier login. *)
Definition stored_session : gmap string string :=
  <["role" := "operator"]> (<["token" := "abc"]> ∅).

(** What the route table tests: [token] as a JavaScript condition. *)
Definition session_active (w : World) : bool := JS.truthy (token w).

(** A filled-in form with an image, and the same form with the name left
    empty. *)
Definition jane : Dash :=
  {| persons := []; events := [];
     form := {| name := "Jane Doe"; category := "Family"; expiry := ""; contact := "" |};
     file := Some (mkFile "jane.png"); message := ""; loading := false |}.

Definition nameless : Dash :=
  setForm {| name := ""; category := "Temporary"; expiry := "2030-01-01"; contact := "" |} jane.

(** A rejection whose body carries a detail, and one without a response. *)
Definition rejected_with (s : string) : AxiosError :=
  {| response := Some {| data := Some {| detail := Some s |} |} |}.

Definition network_error : AxiosError := {| response := None |}.

(** ** Dashboard.tsx: logout button, form object, banner and chart *)

(** [handleLogout]: the [logout] of the context, then [navigate('/login')]. *)
Definition handleLogout (w : World) : World * list effect :=
  (logout w, [Navigate "/login"]).

(** The names of the four inputs bound to the form object. *)
Definition form_keys : list string := ["name"; "category"; "expiry"; "contact"].

(** [form[k]] for a key of the form object. *)
Definition form_get (k : string) (f : Form) : option string :=
  if String.eqb k "name" then Some (name f)
  else if String.eqb k "category" then Some (category f)
  else if String.eqb k "expiry" then Some (expiry f)
  else if String.eqb k "contact" then Some (contact f)
  else None.

(** A run of [onChange] events on the inputs, oldest first. *)
Definition apply_edits (edits : list (string * string)) (d : Dash) : Dash :=
  foldl (λ acc kv, handleInputChange kv.1 kv.2 acc) d edits.

(** [hay.includes(needle)]. *)
Fixpoint includes (needle hay : string) : bool :=
  String.prefix needle hay
  || match hay with
     | EmptyString => false
     | String _ rest => includes needle rest
     end.

Inductive bannerStyle := RedBanner | GreenBanner.

(** The message box above the form: rendered only for a non-empty message,
    red when the message includes the word Error, green otherwise. *)
Definition banner (d : Dash) : option (bannerStyle * string) :=
  if nonempty (message d)
  then Some (if includes "Error" (message d) then RedBanner else GreenBanner,
             message d)
  else None.

Record chartPoint := mkChartPoint {
  point_name       : string;
  point_similarity : Q;
  point_timestamp  : string
}.

(** [event.similarity || 0]. *)
Definition similarity_or_zero (s : option Q) : Q :=
  match s with
  | Some q => if Qeq_bool q 0 then 0%Q else q
  | None => 0%Q
  end.

(** [chartData]; the rendering of a time of day by the browser's locale is
    the parameter [toLocaleTimeString]. *)
Definition chartData (toLocaleTimeString : string → string) (evs : list Event)
    : list chartPoint :=
  imap (λ index event,
          {| point_name := "Event " +:+ pretty (index + 1)%nat;
             point_similarity := similarity_or_zero (event_similarity event);
             point_timestamp := toLocaleTimeString (event_timestamp event) |})
       (take 10 evs).

(** Whether an action writes the session ([login], [logout]) or only
    reads it back (a reload). *)
Definition writes_session (a : action) : bool :=
  match a with
  | Login _ _ | Logout => true
  | Reload => false
  end.

(** A browser whose storage holds a token and no role. *)
Definition token_only_storage : gmap string string := {["token" := "abc"]}.

(** * Session store *)

Section SessionStore.

Implicit Types (w : World) (ls : gmap string string) (t r : string).

Lemma paired_Some {A B} (a : A) (b : B) : paired (Some a) (Some b).
Proof. split; eauto. Qed.

Lemma paired_None {A B} : paired (@None A) (@None B).
Proof. split; intros [? ?]; discriminate. Qed.

Lemma login_storage_paired t r ls :
  storage_paired (<["role" := r]> (<["token" := t]> ls)).
Proof.
  unfold storage_paired.
  rewrite lookup_insert_ne by done.
  rewrite !lookup_insert_eq. apply paired_Some.
Qed.

Lemma logout_storage_paired ls :
  storage_paired (delete "role" (delete "token" ls)).
Proof.
  unfold storage_paired.
  rewrite lookup_delete_ne by done.
  rewrite !lookup_delete_eq. apply paired_None.
Qed.

Lemma App_init_consistent ls : storage_paired ls → consistent (App_init ls).
Proof. intros Hls. split; simpl; exact Hls. Qed.

Lemma step_consistent w a : consistent w → consistent (step w a).
Proof.
  intros [Hs Hl]. destruct a as [t r | | ]; simpl.
  - split; simpl; [apply paired_Some | apply login_storage_paired].
  - split; simpl; [apply paired_None | apply logout_storage_paired].
  - by apply App_init_consistent.
Qed.

Lemma run_consistent acts : ∀ w, consistent w → consistent (run w acts).
Proof.
  induction acts as [| a acts IH]; intros w Hw; simpl; [done |].
  apply IH. by apply step_consistent.
Qed.

Lemma App_init_header ls : header_of_token (App_init ls).
Proof. intros h Hh. simpl in Hh. by rewrite lookup_empty in Hh. Qed.

Lemma step_header w a : header_of_token w → header_of_token (step w a).
Proof.
  intros Hw. destruct a as [t r | | ]; simpl.
  - intros h. simpl. rewrite lookup_insert_eq. intros [= <-]. eauto.
  - intros h. simpl. by rewrite lookup_delete_eq.
  - apply App_init_header.
Qed.

Lemma run_header acts : ∀ w, header_of_token w → header_of_token (run w acts).
Proof.
  induction acts as [| a acts IH]; intros w Hw; simpl; [done |].
  apply IH. by apply step_header.
Qed.

(** Without a token in memory there is no default header. *)
Lemma no_token_no_header acts ls :
  let w := run (App_init ls) acts in
  token w = None → axiosCommon w !! "Authorization" = None.
Proof.
  intros w Hnone.
  destruct (axiosCommon w !! "Authorization") as [h |] eqn:Hh; [| done].
  destruct (run_header acts _ (App_init_header ls) h Hh) as (t & Ht & _).
  fold w in Ht. congruence.
Qed.

(** Storage that was tampered with from outside is restored as it is. *)
Remark App_init_unpaired_storage :
  getSession (App_init {["token" := "abc"]}) = (Some "abc", None).
Proof. reflexivity. Qed.

(** Once [login] has run in this page, the default header carries the
    token of the session. *)
Lemma login_arms_default t r w :
  axiosCommon (login t r w) !! "Authorization" = Some ("Bearer " +:+ t).
Proof. simpl. apply lookup_insert_eq. Qed.

Lemma logout_disarms_default w :
  axiosCommon (logout w) !! "Authorization" = None.
Proof. simpl. apply lookup_delete_eq. Qed.

End SessionStore.

(** C3. After [login t r] the session accessor returns [t] and [r] and
    storage holds both entries (so a reload restores the same session);
    after [logout] both are gone from memory and from storage; in both
    cases every other storage entry is left as it was. *)
Theorem login_logout_memory_and_storage (t r : string) (w : World) :
  getSession (login t r w) = (Some t, Some r)
  ∧ localStorage (login t r w) !! "token" = Some t
  ∧ localStorage (login t r w) !! "role" = Some r
  ∧ getSession (reload (login t r w)) = (Some t, Some r)
  ∧ getSession (logout w) = (None, None)
  ∧ localStorage (logout w) !! "token" = None
  ∧ localStorage (logout w) !! "role" = None
  ∧ getSession (reload (logout w)) = (None, None)
  ∧ (∀ k, k ≠ "token" ∧ k ≠ "role" →
          localStorage (login t r w) !! k = localStorage w !! k
          ∧ localStorage (logout w) !! k = localStorage w !! k).
Proof.
  assert (Ht : localStorage (login t r w) !! "token" = Some t).
  { simpl. rewrite lookup_insert_ne by done. apply lookup_insert_eq. }
  assert (Hr : localStorage (login t r w) !! "role" = Some r).
  { simpl. apply lookup_insert_eq. }
  assert (Ht' : localStorage (logout w) !! "token" = None).
  { simpl. rewrite lookup_delete_ne by done. apply lookup_delete_eq. }
  assert (Hr' : localStorage (logout w) !! "role" = None).
  { simpl. apply lookup_delete_eq. }
  repeat split; try done.
  - unfold reload, getSession, App_init. cbn [token role].
    by rewrite Ht, Hr.
  - unfold reload, getSession, App_init. cbn [token role].
    by rewrite Ht', Hr'.
  - simpl. destruct H as [H1 H2]. by rewrite !lookup_insert_ne.
  - simpl. destruct H as [H1 H2]. by rewrite !lookup_delete_ne.
Qed.

(** Reloads alone give back the state of the first render. *)
Lemma run_reloads_only (ls : gmap string string) (acts : list action) :
  existsb writes_session acts = false →
  run (App_init ls) acts = App_init ls.
Proof.
  induction acts as [| a acts IH]; [done |].
  destruct a as [t r | |]; simpl; first [done | exact IH].
Qed.

(** From the first [login] or [logout] on, memory and storage are
    consistent, whatever they were before. *)
Lemma run_write_consistent (acts : list action) :
  existsb writes_session acts = true →
  ∀ w, consistent (run w acts).
Proof.
  induction acts as [| a acts IH]; [done |].
  intros Hex w. simpl in *.
  destruct a as [t r | |]; simpl in *.
  - apply run_consistent.
    split; simpl; [apply paired_Some | apply login_storage_paired].
  - apply run_consistent.
    split; simpl; [apply paired_None | apply logout_storage_paired].
  - by apply IH.
Qed.

(** C2, as stated, fails for the state produced by initialization: the two
    cells are read from storage one by one, and storage that holds a token
    and no role is restored as a token without a role. *)
Lemma restored_token_without_role :
  ¬ session_paired (run (App_init token_only_storage) []).
Proof.
  intros [Hrole _].
  destruct Hrole as [r Hr]; [by exists "abc" |].
  discriminate Hr.
Qed.

(** C2, amended. A state reached from the first render by [login],
    [logout] and page reloads has the token and the role both present or
    both absent exactly when the storage the page started from held both
    entries or neither, or a [login] or [logout] has run since. So [login]
    and [logout] never leave one of the two without the other, and
    initialization gives back one without the other only when storage held
    it so. *)
Theorem session_pairing_characterised
    (ls : gmap string string) (acts : list action) :
  session_paired (run (App_init ls) acts)
  ↔ storage_paired ls ∨ existsb writes_session acts = true.
Proof.
  destruct (existsb writes_session acts) eqn:Hex.
  - split; [intros _; by right |].
    intros _. by apply cons_session, run_write_consistent.
  - rewrite (run_reloads_only ls acts Hex). split.
    + intros Hp. by left.
    + by intros [Hp | ?].
Qed.

(** C1. A page that starts with a stored session (token [abc]) and in which
    [login] has not run: the session holds the token, yet [GET /persons]
    and [GET /events] go out without an [Authorization] header; only
    [POST /enroll], which builds the header itself, carries the token. *)
Theorem restored_token_not_attached_to_fetches :
  let w := App_init stored_session in
  token w = Some "abc"
  ∧ (∀ rp d, bearer <$> requests_of (fetchPersons (axiosCommon w) rp d).2 = [None])
  ∧ (∀ re d, bearer <$> requests_of (fetchEvents (axiosCommon w) re d).2 = [None])
  ∧ (∀ f fl, bearer (enroll_request (token w) (axiosCommon w) f fl) = Some "Bearer abc").
Proof.
  simpl. split; [done |]. split; [| split].
  - by intros [ps | e] d.
  - by intros [es | e] d.
  - intros f fl. unfold bearer, enroll_request, axios_post, enroll_headers; simpl.
    apply lookup_union_Some_l, lookup_insert_eq.
Qed.

(** In a page where [login] has run, all three operations carry the
    token of that login. *)
Lemma login_attaches_bearer (t r : string) (w : World) :
  let w' := login t r w in
  (∀ rp d, bearer <$> requests_of (fetchPersons (axiosCommon w') rp d).2
           = [Some ("Bearer " +:+ t)])
  ∧ (∀ re d, bearer <$> requests_of (fetchEvents (axiosCommon w') re d).2
             = [Some ("Bearer " +:+ t)])
  ∧ (∀ f fl, bearer (enroll_request (token w') (axiosCommon w') f fl)
             = Some ("Bearer " +:+ t)).
Proof.
  split; [| split].
  - intros [ps | e] d; simpl; unfold bearer; simpl; by rewrite lookup_insert_eq.
  - intros [es | e] d; simpl; unfold bearer; simpl; by rewrite lookup_insert_eq.
  - intros f fl. unfold bearer, enroll_request, axios_post, enroll_headers; simpl.
    apply lookup_union_Some_l, lookup_insert_eq.
Qed.

(** * Route guard *)

(** The credential exchange of the login view: the server answers
    [{access_token: "abc", role: "operator"}], the session becomes
    [("abc", "operator")], and the navigation to [/dashboard] renders the
    dashboard. *)
Example login_scenario :
  let '(l, w, es) :=
    Login_handleSubmit (Fulfilled {| access_token := "abc"; token_role := "operator" |})
      Login_init (App_init ∅) in
  getSession w = (Some "abc", Some "operator")
  ∧ es = [Request (token_request ∅ Login_init); Navigate "/dashboard"]
  ∧ settle 1 "/dashboard" w = Some DashboardView
  ∧ error l = "".
Proof. done. Qed.

(** After [logout], every dashboard navigation ends in the login view. *)
Lemma logout_then_dashboard (w : World) :
  settle 1 "/dashboard" (logout w) = Some LoginView.
Proof. reflexivity. Qed.

Lemma truthy_spec (v : option string) :
  JS.truthy v = true ↔ ∃ t, v = Some t ∧ t ≠ "".
Proof.
  destruct v as [s |]; simpl.
  - destruct (String.eqb_spec s ""); simpl; split.
    + discriminate.
    + intros (t & [= <-] & Hne). done.
    + eauto.
    + done.
  - split; [discriminate | by intros (t & ? & _)].
Qed.

(** C4, as stated, fails for a session whose token is the empty string:
    the token is present, yet the login view is admitted. *)
Lemma guard_admits_login_with_empty_token : ¬ spec_guard empty_token_session.
Proof.
  intros (Hlogin & _).
  assert (Hview : guard "/login" empty_token_session = Some LoginView) by reflexivity.
  apply Hlogin in Hview. apply Hview. unfold session_present. simpl. eauto.
Qed.

(** C4, amended. The guard is a function of the path and of whether the
    token is a non-empty string: the login view is rendered iff it is not
    (otherwise redirect to the dashboard), the dashboard iff it is
    (otherwise redirect to login), the root path always redirects, and
    following the redirect ends in the view that the token admits. Two
    worlds with the same session get the same outcome for every path. *)
Theorem guard_decided_by_token (w : World) :
  guard "/login" w
    = Some (if session_active w then NavigateTo "/dashboard" else LoginView)
  ∧ guard "/dashboard" w
    = Some (if session_active w then DashboardView else NavigateTo "/login")
  ∧ guard "/" w
    = Some (NavigateTo (if session_active w then "/dashboard" else "/login"))
  ∧ Forall (λ p, settle 1 p w
                 = Some (if session_active w then DashboardView else LoginView))
           ["/login"; "/dashboard"; "/"]
  ∧ (session_active w = true ↔ ∃ t, token w = Some t ∧ t ≠ "")
  ∧ (∀ p w', getSession w' = getSession w → guard p w' = guard p w).
Proof.
  unfold session_active, guard.
  split; [| split; [| split; [| split; [| split]]]].
  - unfold routes; simpl. by destruct (JS.truthy (token w)).
  - unfold routes; simpl. by destruct (JS.truthy (token w)).
  - unfold routes; simpl. by destruct (JS.truthy (token w)).
  - repeat constructor; unfold settle, guard, routes; simpl;
      by destruct (JS.truthy (token w)).
  - apply truthy_spec.
  - intros p w' [= Ht _]. by rewrite Ht.
Qed.

(** For every session whose token is not the empty string, the guard is
    the one the specification describes. *)
Lemma spec_guard_nonempty_token (w : World) :
  token w ≠ Some "" → spec_guard w.
Proof.
  intros Hne. unfold spec_guard, session_present, guard, routes.
  destruct (token w) as [t |] eqn:Ht; simpl.
  - destruct (String.eqb_spec t "") as [-> | Hs]; [done |]. simpl.
    assert (Hp : is_Some (Some t)) by eauto.
    split; [split; [discriminate | by intros H] |].
    split; [by split |]. split; [done | by intros H].
  - assert (Hn : ¬ is_Some (@None string)) by (intros [? ?]; discriminate).
    split; [by split |].
    split; [split; [discriminate | by intros H] |].
    split; [by intros H | done].
Qed.

(** * Dashboard: roster and event reads *)

Lemma requests_of_app (es1 es2 : list effect) :
  requests_of (es1 ++ es2) = requests_of es1 ++ requests_of es2.
Proof. apply omap_app. Qed.

Lemma fetchPersons_requests common rp d :
  requests_of (fetchPersons common rp d).2 = [axios_get common "/persons"].
Proof. by destruct rp. Qed.

Lemma fetchEvents_requests common re d :
  requests_of (fetchEvents common re d).2 = [axios_get common "/events"].
Proof. by destruct re. Qed.

Lemma useEffect_requests tok common rp re d :
  requests_of (Dashboard_useEffect tok common rp re d).2
  = [axios_get common "/persons"; axios_get common "/events"].
Proof.
  unfold Dashboard_useEffect.
  destruct (fetchPersons common rp d) as [d1 e1] eqn:H1.
  destruct (fetchEvents common re d1) as [d2 e2] eqn:H2.
  simpl. rewrite !requests_of_app.
  replace e1 with (fetchPersons common rp d).2 by (by rewrite H1).
  replace e2 with (fetchEvents common re d1).2 by (by rewrite H2).
  rewrite fetchPersons_requests, fetchEvents_requests.
  by destruct (JS.truthy tok).
Qed.

(** C9. When [GET /persons] or [GET /events] fails, the only thing that
    happens besides the request is a line on the console: every state cell
    of the dashboard, the snapshots and the displayed message included, is
    what it was; this also holds for the two fetches run on entry. *)
Theorem fetch_failure_keeps_snapshot
    (tok : option string) (common : gmap string string) (e e' : AxiosError) (d : Dash) :
  fetchPersons common (Rejected e) d
    = (d, [Request (axios_get common "/persons"); ConsoleError "Error fetching persons:"])
  ∧ fetchEvents common (Rejected e) d
    = (d, [Request (axios_get common "/events"); ConsoleError "Error fetching events:"])
  ∧ (Dashboard_useEffect tok common (Rejected e) (Rejected e') d).1 = d
  ∧ persons (fetchPersons common (Rejected e) Dashboard_init).1 = []
  ∧ events (fetchEvents common (Rejected e) Dashboard_init).1 = [].
Proof. done. Qed.

(** C10. On entry to the dashboard the effect sends [GET /persons] and
    [GET /events] whatever the token is. In any state the session store can
    reach, when the token is absent the effect navigates to [/login] and
    still sends both requests, neither with an [Authorization] header. *)
Theorem dashboard_entry_fetches_unconditionally
    (ls : gmap string string) (acts : list action)
    (rp : settled (list Person)) (re : settled (list Event)) (d : Dash) :
  let w := run (App_init ls) acts in
  let out := Dashboard_useEffect (token w) (axiosCommon w) rp re d in
  requests_of out.2
    = [axios_get (axiosCommon w) "/persons"; axios_get (axiosCommon w) "/events"]
  ∧ (token w = None →
     Navigate "/login" ∈ out.2 ∧ bearer <$> requests_of out.2 = [None; None]).
Proof.
  intros w out. split; [apply useEffect_requests |].
  intros Hnone. split.
  - unfold out, Dashboard_useEffect. rewrite Hnone.
    destruct (fetchPersons (axiosCommon w) rp d) as [d1 e1].
    destruct (fetchEvents (axiosCommon w) re d1) as [d2 e2].
    simpl. apply list_elem_of_here.
  - assert (Hh : axiosCommon w !! "Authorization" = None)
      by exact (no_token_no_header acts ls Hnone).
    unfold out. rewrite useEffect_requests. unfold bearer; simpl.
    by rewrite Hh.
Qed.

Lemma dashboard_entry_fetches_unconditionally_witness :
  let w := run (App_init stored_session) [Logout] in
  let out := Dashboard_useEffect (token w) (axiosCommon w)
               (Rejected network_error) (Fulfilled []) Dashboard_init in
  token w = None
  ∧ Navigate "/login" ∈ out.2
  ∧ bearer <$> requests_of out.2 = [None; None].
Proof.
  intros w out. split; [reflexivity |].
  exact (proj2 (dashboard_entry_fetches_unconditionally stored_session [Logout]
                  (Rejected network_error) (Fulfilled []) Dashboard_init) eq_refl).
Defined.

(** * Dashboard: enrollment workflow *)

Section Enrollment.

Context (tok : option string) (common : gmap string string).
Implicit Types (d : Dash) (fl : File) (e : AxiosError)
  (rp : settled (list Person)) (ans : settled enrollData).

Lemma handleEnroll_no_file ans rp d :
  file d = None →
  handleEnroll tok common ans rp d
  = (setMessage "Please select an image file" d, []).
Proof. intros Hf. unfold handleEnroll, handleEnroll_begin. by rewrite Hf. Qed.

Lemma handleEnroll_with_file ans rp d fl :
  file d = Some fl →
  handleEnroll tok common ans rp d
  = let '(d2, es) :=
      handleEnroll_resume common ans rp (setMessage "" (setLoading true d)) in
    (d2, Request (enroll_request tok common (form d) fl) :: es).
Proof. intros Hf. unfold handleEnroll, handleEnroll_begin. by rewrite Hf. Qed.

(** The [catch] and [finally] of a failed submission touch the message
    and the in-flight flag, whatever the state was while the request was
    pending. *)
Lemma resume_rejected_frame e rp d :
  let d' := (handleEnroll_resume common (Rejected e) rp d).1 in
  form d' = form d ∧ file d' = file d
  ∧ persons d' = persons d ∧ events d' = events d.
Proof. done. Qed.

Lemma form_submit_blocked picked ans rp d :
  checkValidity d picked = false →
  form_submit picked tok common ans rp d = (d, []).
Proof. intros Hv. unfold form_submit. by rewrite Hv. Qed.

End Enrollment.

(** C5, as stated, fails for an empty name: the handler checks the file
    only, and with a file held it sends the request. *)
Lemma empty_name_is_submitted : ¬ spec_validation nameless.
Proof.
  intros Hspec.
  destruct (Hspec (or_introl eq_refl) (Some "abc") ∅
              (Rejected network_error) (Rejected network_error)) as [Hreq _].
  discriminate Hreq.
Qed.

(** C5, amended. A submission of the form with an empty name or with no
    file held sends no request. With no file held the handler sets the
    message to exactly "Please select an image file" and changes nothing
    else. An empty name is stopped by the [required] name input before
    the handler runs: the state, message included, stays as it was. *)
Theorem enroll_validation
    (picked : option File) (tok : option string) (common : gmap string string)
    (ans : settled enrollData) (rp : settled (list Person)) (d : Dash) :
  name (form d) = "" ∨ file d = None →
  requests_of (form_submit picked tok common ans rp d).2 = []
  ∧ (file d = None →
     handleEnroll tok common ans rp d
     = (setMessage "Please select an image file" d, []))
  ∧ (name (form d) = "" → form_submit picked tok common ans rp d = (d, [])).
Proof.
  intros Hbad.
  assert (Hname : name (form d) = "" → form_submit picked tok common ans rp d = (d, [])).
  { intros Hn. apply form_submit_blocked. unfold checkValidity, nonempty.
    by rewrite Hn. }
  split; [| split; [apply handleEnroll_no_file | exact Hname]].
  destruct Hbad as [Hn | Hf].
  - by rewrite (Hname Hn).
  - unfold form_submit. destruct (checkValidity d picked); [| done].
    by rewrite (handleEnroll_no_file _ _ _ _ _ Hf).
Qed.

Lemma enroll_validation_witness :
  let d := setFile None jane in
  (name (form d) = "" ∨ file d = None)
  ∧ requests_of (form_submit (Some (mkFile "jane.png")) (Some "abc") ∅
                   (Fulfilled {| enroll_message := "enrolled" |}) (Fulfilled []) d).2 = []
  ∧ message (handleEnroll (Some "abc") ∅
               (Fulfilled {| enroll_message := "enrolled" |}) (Fulfilled []) d).1
    = "Please select an image file".
Proof.
  intros d.
  assert (Hbad : name (form d) = "" ∨ file d = None) by (right; reflexivity).
  destruct (enroll_validation (Some (mkFile "jane.png")) (Some "abc") ∅
              (Fulfilled {| enroll_message := "enrolled" |}) (Fulfilled []) d Hbad)
    as (Hreq & Hmsg & _).
  split; [exact Hbad |]. split; [exact Hreq |].
  rewrite (Hmsg eq_refl). reflexivity.
Defined.

(** C6. A submission that the server accepts leaves the form at its
    defaults (empty name, category Family, empty expiry and contact), no
    file held, the server's message displayed and the in-flight flag down;
    it sends [POST /enroll] and then [GET /persons], and the roster held
    afterwards is exactly the fetched one (the old one if the fetch
    fails). *)
Theorem enroll_success_resets_and_refetches
    (tok : option string) (common : gmap string string)
    (r : enrollData) (rp : settled (list Person)) (d : Dash) (fl : File) :
  file d = Some fl →
  let out := handleEnroll tok common (Fulfilled r) rp d in
  form out.1 = defaultForm
  ∧ file out.1 = None
  ∧ message out.1 = enroll_message r
  ∧ loading out.1 = false
  ∧ requests_of out.2
    = [enroll_request tok common (form d) fl; axios_get common "/persons"]
  ∧ persons out.1 = match rp with Fulfilled ps => ps | Rejected _ => persons d end
  ∧ events out.1 = events d.
Proof.
  intros Hf out. unfold out. rewrite (handleEnroll_with_file _ _ _ _ _ _ Hf).
  by destruct rp.
Qed.

Lemma enroll_success_resets_and_refetches_witness :
  let roster := [mkPerson 1 "Jane Doe" "Family" None None] in
  let out := handleEnroll (Some "abc") ∅
               (Fulfilled {| enroll_message := "enrolled" |}) (Fulfilled roster) jane in
  file jane = Some (mkFile "jane.png")
  ∧ form out.1 = defaultForm ∧ file out.1 = None ∧ message out.1 = "enrolled"
  ∧ persons out.1 = roster.
Proof.
  intros roster out.
  destruct (enroll_success_resets_and_refetches (Some "abc") ∅
              {| enroll_message := "enrolled" |} (Fulfilled roster) jane
              (mkFile "jane.png") eq_refl)
    as (Hform & Hfile & Hmsg & _ & _ & Hps & _).
  repeat split; assumption.
Defined.

(** C7. A submission that fails after the request went out leaves the
    name, category, expiry and contact, the file held and both snapshots
    as they were; the message becomes the error message, the in-flight
    flag is down, only [POST /enroll] was sent, and submitting again sends
    the same request. *)
Theorem enroll_failure_preserves_input
    (tok : option string) (common : gmap string string)
    (e : AxiosError) (rp : settled (list Person)) (d : Dash) (fl : File) :
  file d = Some fl →
  let out := handleEnroll tok common (Rejected e) rp d in
  form out.1 = form d
  ∧ file out.1 = file d
  ∧ persons out.1 = persons d
  ∧ events out.1 = events d
  ∧ loading out.1 = false
  ∧ message out.1 = enroll_error_message e
  ∧ out.2 = [Request (enroll_request tok common (form d) fl)]
  ∧ (handleEnroll_begin tok common out.1).2
    = Some (enroll_request tok common (form d) fl).
Proof.
  intros Hf out. unfold out. rewrite (handleEnroll_with_file _ _ _ _ _ _ Hf).
  simpl. repeat split; try done.
  unfold handleEnroll_begin; simpl. by rewrite Hf.
Qed.

Lemma enroll_failure_preserves_input_witness :
  let out := handleEnroll (Some "abc") ∅
               (Rejected (rejected_with "Face not detected")) (Fulfilled []) jane in
  file jane = Some (mkFile "jane.png")
  ∧ form out.1 = form jane ∧ file out.1 = file jane ∧ loading out.1 = false.
Proof.
  intros out.
  destruct (enroll_failure_preserves_input (Some "abc") ∅
              (rejected_with "Face not detected") (Fulfilled []) jane
              (mkFile "jane.png") eq_refl)
    as (Hform & Hfile & _ & _ & Hload & _).
  repeat split; assumption.
Defined.

(** C8, as stated, fails: for the detail "Name already enrolled" the
    message shown is not that string, whatever the generic message is. *)
Lemma enroll_error_is_prefixed :
  ¬ ∃ generic,
      message (handleEnroll (Some "abc") ∅
                 (Rejected (rejected_with "Name already enrolled"))
                 (Rejected network_error) jane).1
      = spec_enroll_failure_message (rejected_with "Name already enrolled") generic.
Proof. intros [generic H]. discriminate H. Qed.

(** C8, amended. The message shown for a failed submission is "Error: "
    followed by the server's detail, unchanged, when the error has a
    response whose body carries a non-empty detail, and is
    "Error: Enrollment failed" in every other case (no response, no body,
    no detail, empty detail). *)
Theorem enroll_failure_message
    (tok : option string) (common : gmap string string)
    (e : AxiosError) (rp : settled (list Person)) (d : Dash) (fl : File) :
  file d = Some fl →
  message (handleEnroll tok common (Rejected e) rp d).1
  = match err_detail e with
    | Some s => if decide (s = "") then "Error: Enrollment failed" else "Error: " +:+ s
    | None => "Error: Enrollment failed"
    end.
Proof.
  intros Hf. rewrite (handleEnroll_with_file _ _ _ _ _ _ Hf). simpl.
  unfold enroll_error_message, JS.or_else.
  destruct (err_detail e) as [s |]; [| done].
  destruct (String.eqb_spec s ""); by case_decide.
Qed.

Lemma enroll_failure_message_witness :
  file jane = Some (mkFile "jane.png")
  ∧ message (handleEnroll (Some "abc") ∅
               (Rejected (rejected_with "Name already enrolled")) (Fulfilled []) jane).1
    = "Error: Name already enrolled"
  ∧ message (handleEnroll (Some "abc") ∅
               (Rejected (rejected_with "")) (Fulfilled []) jane).1
    = "Error: Enrollment failed"
  ∧ message (handleEnroll (Some "abc") ∅
               (Rejected network_error) (Fulfilled []) jane).1
    = "Error: Enrollment failed".
Proof.
  split; [reflexivity |]. split; [| split].
  - exact (enroll_failure_message (Some "abc") ∅ (rejected_with "Name already enrolled")
             (Fulfilled []) jane (mkFile "jane.png") eq_refl).
  - exact (enroll_failure_message (Some "abc") ∅ (rejected_with "")
             (Fulfilled []) jane (mkFile "jane.png") eq_refl).
  - exact (enroll_failure_message (Some "abc") ∅ network_error
             (Fulfilled []) jane (mkFile "jane.png") eq_refl).
Defined.

(** * Further properties of the session store *)

(** What [login], [logout] and a reload keep, whatever the storage was at
    the start: the two cells are what storage holds. *)
Lemma run_mirror (acts : list action) :
  ∀ w, token w = localStorage w !! "token" → role w = localStorage w !! "role" →
       let w' := run w acts in
       token w' = localStorage w' !! "token" ∧ role w' = localStorage w' !! "role".
Proof.
  induction acts as [| a acts IH]; intros w Ht Hr; [done |].
  simpl. apply IH; destruct a as [t r | |]; simpl; by simplify_map_eq.
Qed.

(** X1. In every state reached through [login], [logout] and reloads, the
    session in memory is exactly what storage holds under [token] and
    [role], so a reload at that point gives the same session back. *)
Theorem memory_mirrors_storage (ls : gmap string string) (acts : list action) :
  let w := run (App_init ls) acts in
  token w = localStorage w !! "token"
  ∧ role w = localStorage w !! "role"
  ∧ getSession (reload w) = getSession w.
Proof.
  intros w.
  destruct (run_mirror acts (App_init ls) eq_refl eq_refl) as [Ht Hr].
  fold w in Ht, Hr. split; [done |]. split; [done |].
  unfold getSession, reload, App_init; simpl. by rewrite Ht, Hr.
Qed.

Lemma step_foreign_key (w : World) (a : action) (k : string) :
  k ≠ "token" → k ≠ "role" →
  localStorage (step w a) !! k = localStorage w !! k.
Proof.
  intros Hk1 Hk2. destruct a as [t r | |]; simpl.
  - by rewrite !lookup_insert_ne.
  - by rewrite !lookup_delete_ne.
  - done.
Qed.

(** X2. No sequence of [login], [logout] and reloads changes a storage
    entry other than [token] and [role]. *)
Theorem foreign_storage_keys_untouched
    (ls : gmap string string) (acts : list action) (k : string) :
  k ≠ "token" → k ≠ "role" →
  localStorage (run (App_init ls) acts) !! k = ls !! k.
Proof.
  intros Hk1 Hk2.
  change (ls !! k) with (localStorage (App_init ls) !! k).
  generalize (App_init ls) as w.
  induction acts as [| a acts IH]; intros w; [done |].
  simpl. rewrite IH. by apply step_foreign_key.
Qed.

Lemma foreign_storage_keys_untouched_witness :
  localStorage
    (run (App_init (<["theme" := "dark"]> stored_session))
         [Logout; Login "xyz" "admin"; Reload; Logout]) !! "theme"
  = Some "dark".
Proof.
  rewrite (foreign_storage_keys_untouched (<["theme" := "dark"]> stored_session)
             [Logout; Login "xyz" "admin"; Reload; Logout] "theme");
    [reflexivity | discriminate | discriminate].
Defined.

Lemma run_app (w : World) (acts1 acts2 : list action) :
  run w (acts1 ++ acts2) = run (run w acts1) acts2.
Proof. apply foldl_app. Qed.

Lemma reloads_keep_session (n : nat) :
  ∀ w, token w = localStorage w !! "token" → role w = localStorage w !! "role" →
       getSession (run w (replicate n Reload)) = getSession w.
Proof.
  induction n as [| n IH]; intros w Ht Hr; [done |].
  simpl. rewrite IH by done.
  unfold getSession; simpl. by rewrite Ht, Hr.
Qed.

(** X3. Whatever happened before, a [login t r] followed by any number of
    reloads leaves the session [(t, r)], and a [logout] followed by any
    number of reloads leaves no session. *)
Theorem session_survives_reloads
    (w : World) (acts : list action) (t r : string) (n : nat) :
  getSession (run w (acts ++ Login t r :: replicate n Reload)) = (Some t, Some r)
  ∧ getSession (run w (acts ++ Logout :: replicate n Reload)) = (None, None).
Proof.
  rewrite !run_app. simpl. split.
  - rewrite reloads_keep_session; [done | |]; simpl; by simplify_map_eq.
  - rewrite reloads_keep_session; [done | |]; simpl; by simplify_map_eq.
Qed.

(** X4. In every state the session store can reach, a request of the
    dashboard's entry effect that carries an [Authorization] header carries
    the token of the session in memory: a token that was logged out is
    never sent. *)
Theorem fetch_bearer_is_current_token
    (ls : gmap string string) (acts : list action)
    (rp : settled (list Person)) (re : settled (list Event)) (d : Dash) (h : string) :
  let w := run (App_init ls) acts in
  Some h ∈ bearer <$> requests_of
                        (Dashboard_useEffect (token w) (axiosCommon w) rp re d).2 →
  ∃ t, token w = Some t ∧ h = "Bearer " +:+ t.
Proof.
  intros w. rewrite useEffect_requests. unfold bearer; simpl.
  intros Hin.
  assert (Hh : axiosCommon w !! "Authorization" = Some h).
  { apply list_elem_of_In in Hin. simpl in Hin. by destruct Hin as [|[|[]]]. }
  exact (run_header acts _ (App_init_header ls) h Hh).
Qed.

Lemma fetch_bearer_is_current_token_witness :
  let w := run (App_init stored_session) [Logout; Login "xyz" "admin"] in
  ∃ t, token w = Some t ∧ "Bearer xyz" = "Bearer " +:+ t.
Proof.
  apply (fetch_bearer_is_current_token stored_session [Logout; Login "xyz" "admin"]
           (Rejected network_error) (Fulfilled []) Dashboard_init "Bearer xyz").
  vm_compute. apply list_elem_of_here.
Defined.

(** * Logout button, login form and their interplay with the routes *)

Lemma logout_views (w : World) (p : string) :
  p ∈ ["/login"; "/dashboard"; "/"] →
  settle 1 p (logout w) = Some LoginView
  ∧ settle 1 p (reload (logout w)) = Some LoginView.
Proof.
  intros Hp.
  assert (Hr : token (reload (logout w)) = None).
  { simpl. rewrite lookup_delete_ne by done. apply lookup_delete_eq. }
  assert (Hsettle : ∀ w', token w' = None → settle 1 p w' = Some LoginView).
  { intros w' Hw'. unfold settle, guard, routes. rewrite Hw'.
    apply list_elem_of_In in Hp. simpl in Hp.
    by destruct Hp as [<- | [<- | [<- | []]]]. }
  split; by apply Hsettle.
Qed.

(** X5. The logout button makes no request: it only navigates to [/login].
    Afterwards each of the three routes ends in the login view, also after
    a reload, and the dashboard's fetches would go out without an
    [Authorization] header, whatever the state was before. *)
Theorem handleLogout_is_local (w : World) :
  let out := handleLogout w in
  out.2 = [Navigate "/login"]
  ∧ Forall (λ p, settle 1 p out.1 = Some LoginView
                 ∧ settle 1 p (reload out.1) = Some LoginView)
           ["/login"; "/dashboard"; "/"]
  ∧ (∀ rp re d,
       bearer <$> requests_of
                    (Dashboard_useEffect (token out.1) (axiosCommon out.1) rp re d).2
       = [None; None]).
Proof.
  simpl. split; [done |]. split.
  - apply Forall_forall. intros p Hp. by apply logout_views.
  - intros rp re d. rewrite useEffect_requests. unfold bearer; simpl.
    by rewrite lookup_delete_eq.
Qed.

Lemma useEffect_effects tok common rp re d :
  ∃ logs1 logs2,
    (Dashboard_useEffect tok common rp re d).2
    = (if negb (JS.truthy tok) then [Navigate "/login"] else [])
      ++ (Request (axios_get common "/persons") :: (ConsoleError <$> logs1))
      ++ (Request (axios_get common "/events") :: (ConsoleError <$> logs2)).
Proof.
  unfold Dashboard_useEffect.
  destruct rp as [ps | e1], re as [es | e2]; simpl.
  - by exists [], [].
  - by exists [], ["Error fetching events:"].
  - by exists ["Error fetching persons:"], [].
  - by exists ["Error fetching persons:"], ["Error fetching events:"].
Qed.

Lemma navigate_not_logged (to : string) (logs : list string) :
  Navigate to ∉ ConsoleError <$> logs.
Proof. intros (l & Heq & _)%list_elem_of_fmap. discriminate. Qed.

Lemma useEffect_navigate tok common rp re d (to : string) :
  Navigate to ∈ (Dashboard_useEffect tok common rp re d).2
  ↔ to = "/login" ∧ JS.truthy tok = false.
Proof.
  destruct (useEffect_effects tok common rp re d) as (logs1 & logs2 & ->).
  rewrite !elem_of_app, !elem_of_cons.
  pose proof (navigate_not_logged to logs1).
  pose proof (navigate_not_logged to logs2).
  destruct (JS.truthy tok); simpl.
  - rewrite elem_of_nil. split; [| by intros [_ ?]].
    intros [[] | [[Heq | Hin] | [Heq | Hin]]]; done.
  - rewrite list_elem_of_singleton. split; [| intros [-> _]; by left].
    intros [Heq | [[Heq | Hin] | [Heq | Hin]]]; try done.
    by injection Heq as ->.
Qed.

(** X6. The dashboard's entry effect navigates nowhere but to [/login], and
    it does so exactly when the route table redirects [/dashboard] to
    [/login]; the login route then renders the login view, so the redirect
    does not bounce back. *)
Theorem effect_redirect_agrees_with_guard
    (w : World) (rp : settled (list Person)) (re : settled (list Event)) (d : Dash) :
  let es := (Dashboard_useEffect (token w) (axiosCommon w) rp re d).2 in
  (∀ to, Navigate to ∈ es → to = "/login")
  ∧ (Navigate "/login" ∈ es ↔ guard "/dashboard" w = Some (NavigateTo "/login"))
  ∧ (Navigate "/login" ∈ es → guard "/login" w = Some LoginView).
Proof.
  intros es. unfold es. split; [| split].
  - intros to. rewrite useEffect_navigate. by intros [-> _].
  - rewrite useEffect_navigate. unfold guard, routes; simpl.
    destruct (JS.truthy (token w)); split; try done. by intros [_ ?].
  - rewrite useEffect_navigate. unfold guard, routes; simpl.
    by intros [_ ->].
Qed.

(** X7. A credential exchange that returns a non-empty token, from any
    state: the session is the returned pair, the navigation to
    [/dashboard] renders the dashboard (also after a reload), and the
    dashboard's entry effect stays there and sends both fetches with that
    token as bearer. *)
Theorem login_success_reaches_dashboard
    (r : tokenData) (l : LoginState) (w : World)
    (rp : settled (list Person)) (re : settled (list Event)) (d : Dash) :
  access_token r ≠ "" →
  let out := Login_handleSubmit (Fulfilled r) l w in
  let es := (Dashboard_useEffect (token out.1.2) (axiosCommon out.1.2) rp re d).2 in
  out.2 = [Request (token_request (axiosCommon w) l); Navigate "/dashboard"]
  ∧ getSession out.1.2 = (Some (access_token r), Some (token_role r))
  ∧ settle 1 "/dashboard" out.1.2 = Some DashboardView
  ∧ settle 1 "/dashboard" (reload out.1.2) = Some DashboardView
  ∧ (Navigate "/login" ∉ es)
  ∧ bearer <$> requests_of es
    = [Some ("Bearer " +:+ access_token r); Some ("Bearer " +:+ access_token r)].
Proof.
  intros Hne out es.
  assert (Htruthy : JS.truthy (Some (access_token r)) = true).
  { apply truthy_spec. eauto. }
  assert (Hreload : token (reload out.1.2) = Some (access_token r)).
  { simpl. rewrite lookup_insert_ne by done. apply lookup_insert_eq. }
  split; [done |]. split; [done |]. split; [| split; [| split]].
  - unfold settle, guard, routes. simpl token. by rewrite Htruthy.
  - unfold settle, guard, routes. rewrite Hreload. by rewrite Htruthy.
  - unfold es. rewrite useEffect_navigate. simpl token. rewrite Htruthy.
    by intros [_ ?].
  - unfold es. rewrite useEffect_requests. unfold bearer; simpl.
    by rewrite lookup_insert_eq.
Qed.

Lemma login_success_reaches_dashboard_witness :
  let out := Login_handleSubmit
               (Fulfilled {| access_token := "abc"; token_role := "operator" |})
               Login_init (App_init ∅) in
  getSession out.1.2 = (Some "abc", Some "operator")
  ∧ settle 1 "/dashboard" out.1.2 = Some DashboardView.
Proof.
  intros out.
  assert (Hne : access_token {| access_token := "abc"; token_role := "operator" |} ≠ "")
    by discriminate.
  destruct (login_success_reaches_dashboard
              {| access_token := "abc"; token_role := "operator" |}
              Login_init (App_init ∅) (Fulfilled []) (Fulfilled []) Dashboard_init Hne)
    as (_ & Hs & Hv & _).
  split; [exact Hs | exact Hv].
Defined.

(** X8. In every reachable state without a token, the credential exchange
    goes out without an [Authorization] header and as a form-encoded post
    of exactly the typed username and password; when it is rejected, the
    session store is left as it was, nothing navigates, and the error shown
    is "Invalid credentials" whatever the rejection was. *)
Theorem login_attempt_without_session
    (ls : gmap string string) (acts : list action) (l : LoginState) (e : AxiosError) :
  let w := run (App_init ls) acts in
  token w = None →
  let req := token_request (axiosCommon w) l in
  let out := Login_handleSubmit (Rejected e) l w in
  bearer req = None
  ∧ headers req !! "Content-Type" = Some "application/x-www-form-urlencoded"
  ∧ body req = [("username", Text (username l)); ("password", Text (password l))]
  ∧ out.2 = [Request req]
  ∧ out.1.2 = w
  ∧ error out.1.1 = "Invalid credentials"
  ∧ (username out.1.1, password out.1.1) = (username l, password l).
Proof.
  intros w Hnone req out.
  assert (Hh : axiosCommon w !! "Authorization" = None)
    by exact (no_token_no_header acts ls Hnone).
  split; [| split; [| done]].
  - unfold bearer, req, token_request, axios_post; simpl.
    apply lookup_union_None. split; [done | exact Hh].
  - unfold req, token_request, axios_post; simpl.
    apply lookup_union_Some_l. apply lookup_singleton_eq.
Qed.

Lemma login_attempt_without_session_witness :
  let w := run (App_init stored_session) [Logout] in
  token w = None
  ∧ bearer (token_request (axiosCommon w) Login_init) = None
  ∧ error (Login_handleSubmit (Rejected (rejected_with "locked")) Login_init w).1.1
    = "Invalid credentials".
Proof.
  intros w.
  destruct (login_attempt_without_session stored_session [Logout] Login_init
              (rejected_with "locked") eq_refl)
    as (Hb & _ & _ & _ & _ & He & _).
  split; [reflexivity |]. split; [exact Hb | exact He].
Defined.

(** * The enrollment request *)

(** X9. The multi-part payload of an enrollment: [name] first, [category]
    second, the image last and the only binary part; no key twice; the
    optional [expiry] and [contact] are sent exactly when they are not
    empty, with the value of the form, never as empty strings. *)
Theorem enroll_payload_shape (f : Form) (fl : File) :
  let b := enroll_formData f fl in
  NoDup b.*1
  ∧ b !! 0%nat = Some ("name", Text (name f))
  ∧ b !! 1%nat = Some ("category", Text (category f))
  ∧ last b = Some ("file", Blob fl)
  ∧ (∀ v, ("expiry", Text v) ∈ b ↔ v = expiry f ∧ v ≠ "")
  ∧ (∀ v, ("contact", Text v) ∈ b ↔ v = contact f ∧ v ≠ "")
  ∧ (∀ k x, (k, Blob x) ∈ b → k = "file" ∧ x = fl)
  ∧ (3 ≤ length b ≤ 5)%nat.
Proof.
  unfold enroll_formData, nonempty.
  destruct (String.eqb_spec (expiry f) "") as [He | He],
           (String.eqb_spec (contact f) "") as [Hc | Hc]; simpl;
    (split; [apply (bool_decide_unpack _); by vm_compute |]);
    (split; [done |]); (split; [done |]); (split; [done |]);
    (split; [| split; [| split; [| lia]]]).
  all: try (intros v; rewrite !elem_of_cons, elem_of_nil; split;
            [ intros H; repeat (destruct H as [H | H]); try done;
              injection H as ->; done
            | intros [-> Hv]; try done; auto 6 ]).
  all: intros k x; rewrite !elem_of_cons, elem_of_nil;
       intros H; repeat (destruct H as [H | H]); try done;
       by injection H as -> ->.
Qed.

(** X11. What a submission can touch, over all its branches: the events
    snapshot never; the roster only after an accepted submission whose
    re-fetch succeeded; it sends no request exactly when no file is held
    and never more than two; it never navigates; it writes to the console
    only when the re-fetch after an accepted submission fails; and the
    in-flight flag is down afterwards whenever a request was sent. *)
Theorem handleEnroll_footprint
    (tok : option string) (common : gmap string string)
    (ans : settled enrollData) (rp : settled (list Person)) (d : Dash) :
  let out := handleEnroll tok common ans rp d in
  events out.1 = events d
  ∧ (persons out.1 ≠ persons d → ∃ r ps, ans = Fulfilled r ∧ rp = Fulfilled ps)
  ∧ (requests_of out.2 = [] ↔ file d = None)
  ∧ (length (requests_of out.2) ≤ 2)%nat
  ∧ (∀ to, Navigate to ∉ out.2)
  ∧ (∀ l, ConsoleError l ∈ out.2 → ∃ r e, ans = Fulfilled r ∧ rp = Rejected e)
  ∧ (is_Some (file d) → loading out.1 = false).
Proof.
  unfold handleEnroll, handleEnroll_begin.
  destruct (file d) as [fl |] eqn:Hf; simpl.
  - destruct ans as [r | e], rp as [ps | e']; simpl;
      (split; [done |]); (split; [try done; eauto |]);
      (split; [by split |]); (split; [lia |]);
      (split; [ intros to; rewrite ?elem_of_cons, elem_of_nil;
                intros H; repeat (destruct H as [H | H]); done |]);
      (split; [| done]);
      intros l; rewrite ?elem_of_cons, elem_of_nil;
      intros H; repeat (destruct H as [H | H]); try done; eauto.
  - split; [done |]. split; [done |]. split; [done |]. split; [lia |].
    split; [intros to; apply not_elem_of_nil |].
    split; [intros l Hl; by apply elem_of_nil in Hl | by intros [? ?]].
Qed.

(** * Editing the form *)

Lemma handleInputChange_frame (k v : string) (d : Dash) :
  let d' := handleInputChange k v d in
  file d' = file d ∧ message d' = message d ∧ loading d' = loading d
  ∧ persons d' = persons d ∧ events d' = events d.
Proof.
  unfold handleInputChange.
  by repeat (match goal with |- context [String.eqb ?a ?b] =>
                               destruct (String.eqb a b) end).
Qed.

Lemma apply_edits_file (edits : list (string * string)) :
  ∀ d, file (apply_edits edits d) = file d.
Proof.
  induction edits as [| [k v] edits IH]; intros d; [done |].
  unfold apply_edits in *. simpl. rewrite IH.
  apply handleInputChange_frame.
Qed.

Lemma handleEnroll_success_file tok common r rp d fl :
  file d = Some fl →
  file (handleEnroll tok common (Fulfilled r) rp d).1 = None.
Proof.
  intros Hf. rewrite (handleEnroll_with_file _ _ _ _ _ _ Hf). by destruct rp.
Qed.

(** X12. After an accepted enrollment no file is held, and typing into the
    form does not bring one back: the next submission, whatever was typed
    and whatever the file input still shows, sends no request, and the
    handler answers "Please select an image file". *)
Theorem resubmit_after_success_needs_new_file
    (tok : option string) (common : gmap string string)
    (r : enrollData) (rp rp' : settled (list Person)) (ans' : settled enrollData)
    (d : Dash) (fl : File) (edits : list (string * string)) (picked : option File) :
  file d = Some fl →
  let d1 := apply_edits edits (handleEnroll tok common (Fulfilled r) rp d).1 in
  requests_of (form_submit picked tok common ans' rp' d1).2 = []
  ∧ handleEnroll tok common ans' rp' d1
    = (setMessage "Please select an image file" d1, []).
Proof.
  intros Hf d1.
  assert (Hnone : file d1 = None).
  { unfold d1. rewrite apply_edits_file. by eapply handleEnroll_success_file. }
  assert (Hh : handleEnroll tok common ans' rp' d1
               = (setMessage "Please select an image file" d1, []))
    by by apply handleEnroll_no_file.
  split; [| exact Hh].
  unfold form_submit. destruct (checkValidity d1 picked); [| done].
  by rewrite Hh.
Qed.

Lemma resubmit_after_success_needs_new_file_witness :
  let d1 := apply_edits [("name", "John Roe"); ("category", "Temporary")]
              (handleEnroll (Some "abc") ∅
                 (Fulfilled {| enroll_message := "enrolled" |}) (Fulfilled []) jane).1 in
  file jane = Some (mkFile "jane.png")
  ∧ requests_of (form_submit (Some (mkFile "jane.png")) (Some "abc") ∅
                   (Fulfilled {| enroll_message := "enrolled" |}) (Fulfilled []) d1).2 = [].
Proof.
  intros d1. split; [reflexivity |].
  exact (proj1 (resubmit_after_success_needs_new_file (Some "abc") ∅
                  {| enroll_message := "enrolled" |} (Fulfilled []) (Fulfilled [])
                  (Fulfilled {| enroll_message := "enrolled" |}) jane (mkFile "jane.png")
                  [("name", "John Roe"); ("category", "Temporary")]
                  (Some (mkFile "jane.png")) eq_refl)).
Defined.

(** X13. The file input: of a selection only the first file is held, and
    it is the one the next submission uploads; an empty selection (the
    dialog was cancelled) drops the held file, so the next submission is
    refused; a change event without a file list changes nothing. No other
    cell of the dashboard is touched. *)
Theorem handleFileChange_holds_first_file
    (tok : option string) (common : gmap string string)
    (ans : settled enrollData) (rp : settled (list Person)) (d : Dash) :
  (∀ fl rest,
     let d' := handleFileChange (Some (fl :: rest)) d in
     file d' = Some fl
     ∧ head (requests_of (handleEnroll tok common ans rp d').2)
       = Some (enroll_request tok common (form d) fl))
  ∧ (let d' := handleFileChange (Some []) d in
     file d' = None
     ∧ handleEnroll tok common ans rp d'
       = (setMessage "Please select an image file" d', []))
  ∧ handleFileChange None d = d
  ∧ (∀ files,
       let d' := handleFileChange files d in
       form d' = form d ∧ message d' = message d ∧ loading d' = loading d
       ∧ persons d' = persons d ∧ events d' = events d).
Proof.
  split; [| split; [| split]].
  - intros fl rest d'. split; [done |].
    rewrite (handleEnroll_with_file tok common ans rp d' fl eq_refl).
    by destruct (handleEnroll_resume common ans rp _).
  - by split.
  - done.
  - by intros [fs |].
Qed.

Lemma form_keys_cases (k : string) :
  k ∈ form_keys → k = "name" ∨ k = "category" ∨ k = "expiry" ∨ k = "contact".
Proof.
  unfold form_keys. rewrite !elem_of_cons, elem_of_nil. tauto.
Qed.

(** X14. A change of one of the four inputs sets that key of the form
    object to the new value and leaves the other keys, the held file, the
    message, the in-flight flag and both snapshots as they were. *)
Theorem handleInputChange_updates_one_key (k v : string) (d : Dash) :
  k ∈ form_keys →
  let d' := handleInputChange k v d in
  form_get k (form d') = Some v
  ∧ (∀ k', k' ≠ k → form_get k' (form d') = form_get k' (form d))
  ∧ file d' = file d ∧ message d' = message d ∧ loading d' = loading d
  ∧ persons d' = persons d ∧ events d' = events d.
Proof.
  intros Hk d'. split; [| split; [| apply handleInputChange_frame]].
  - apply form_keys_cases in Hk as [-> | [-> | [-> | ->]]]; reflexivity.
  - intros k' Hne. unfold form_get.
    apply form_keys_cases in Hk as [-> | [-> | [-> | ->]]]; simpl;
      repeat (match goal with |- context [String.eqb_spec ?a ?b] => idtac
              | |- context [String.eqb ?a ?b] =>
                  destruct (String.eqb_spec a b); subst end); done.
Qed.

Lemma handleInputChange_updates_one_key_witness :
  form_get "expiry" (form (handleInputChange "expiry" "2031-05-01" jane))
  = Some "2031-05-01"
  ∧ form_get "name" (form (handleInputChange "expiry" "2031-05-01" jane))
    = Some "Jane Doe".
Proof.
  assert (Hk : "expiry" ∈ form_keys) by (apply (bool_decide_unpack _); by vm_compute).
  destruct (handleInputChange_updates_one_key "expiry" "2031-05-01" jane Hk)
    as (Hget & Hother & _).
  split; [exact Hget |].
  rewrite (Hother "name") by discriminate. reflexivity.
Defined.

(** X15. What is typed is what is sent: after a non-empty value is entered
    into one of the four inputs, the payload of the next submission holds
    that value under the name of the input. *)
Theorem typed_value_is_sent
    (tok : option string) (common : gmap string string)
    (ans : settled enrollData) (rp : settled (list Person))
    (k v : string) (d : Dash) (fl : File) :
  k ∈ form_keys → v ≠ "" → file d = Some fl →
  ∃ req, head (requests_of (handleEnroll tok common ans rp (handleInputChange k v d)).2)
         = Some req
         ∧ (k, Text v) ∈ body req.
Proof.
  intros Hk Hv Hf.
  set (d' := handleInputChange k v d).
  assert (Hf' : file d' = Some fl).
  { unfold d'. by rewrite (proj1 (handleInputChange_frame k v d)). }
  exists (enroll_request tok common (form d') fl). split.
  - rewrite (handleEnroll_with_file tok common ans rp d' fl Hf').
    by destruct (handleEnroll_resume common ans rp _).
  - assert (Hv' : String.eqb v "" = false) by by apply String.eqb_neq.
    unfold d', enroll_request, axios_post, enroll_formData, nonempty; simpl.
    apply form_keys_cases in Hk as [-> | [-> | [-> | ->]]]; simpl;
      rewrite ?Hv'; simpl.
    + apply list_elem_of_here.
    + apply list_elem_of_further, list_elem_of_here.
    + do 2 apply list_elem_of_further. apply list_elem_of_here.
    + destruct (negb (expiry (form d) =? "")); simpl;
        repeat (first [apply list_elem_of_here | apply list_elem_of_further]).
Qed.

Lemma typed_value_is_sent_witness :
  ∃ req, head (requests_of (handleEnroll (Some "abc") ∅
                              (Rejected network_error) (Fulfilled [])
                              (handleInputChange "contact" "555-0100" jane)).2)
         = Some req
         ∧ ("contact", Text "555-0100") ∈ body req.
Proof.
  apply (typed_value_is_sent (Some "abc") ∅ (Rejected network_error) (Fulfilled [])
           "contact" "555-0100" jane (mkFile "jane.png")).
  - apply (bool_decide_unpack _). by vm_compute.
  - discriminate.
  - reflexivity.
Defined.

(** * The message banner *)

Lemma prefix_app (n rest : string) : String.prefix n (n +:+ rest) = true.
Proof.
  induction n as [| c n IH]; simpl; [by destruct rest |].
  destruct (Ascii.ascii_dec c c); [exact IH | done].
Qed.

Lemma includes_unfold (needle hay : string) :
  includes needle hay
  = String.prefix needle hay
    || match hay with
       | EmptyString => false
       | String _ rest => includes needle rest
       end.
Proof. by destruct hay. Qed.

Lemma includes_app (needle before after : string) :
  includes needle (before +:+ needle +:+ after) = true.
Proof.
  induction before as [| c before IH].
  - change ("" +:+ needle +:+ after) with (needle +:+ after).
    by rewrite includes_unfold, prefix_app.
  - change (String c before +:+ needle +:+ after)
      with (String c (before +:+ needle +:+ after)).
    rewrite includes_unfold, IH. apply orb_true_r.
Qed.

Lemma app_nonempty (before needle after : string) :
  needle ≠ "" → nonempty (before +:+ needle +:+ after) = true.
Proof.
  intros Hne. destruct before; [| done].
  destruct needle; [done | done].
Qed.

Lemma error_prefix_included (s : string) :
  includes "Error" ("Error: " +:+ s) = true.
Proof. exact (includes_app "Error" "" (": " +:+ s)). Qed.

(** X16. How the outcome of a submission is displayed: a failed submission
    always in the red box, whatever the error was; the refusal for a
    missing file in the green box; a success message in the red box
    whenever it contains the word Error; and no box at all while the
    request is in flight. *)
Theorem enroll_banner
    (tok : option string) (common : gmap string string)
    (rp : settled (list Person)) (d : Dash) :
  (∀ e, is_Some (file d) →
        banner (handleEnroll tok common (Rejected e) rp d).1
        = Some (RedBanner, enroll_error_message e))
  ∧ (∀ ans, file d = None →
            banner (handleEnroll tok common ans rp d).1
            = Some (GreenBanner, "Please select an image file"))
  ∧ (∀ r before after,
       is_Some (file d) → enroll_message r = before +:+ "Error" +:+ after →
       banner (handleEnroll tok common (Fulfilled r) rp d).1
       = Some (RedBanner, enroll_message r))
  ∧ (is_Some (file d) → banner (handleEnroll_begin tok common d).1 = None).
Proof.
  split; [| split; [| split]].
  - intros e [fl Hf]. rewrite (handleEnroll_with_file _ _ _ _ _ _ Hf).
    unfold banner. cbn [handleEnroll_resume fst setLoading setMessage message].
    unfold enroll_error_message.
    by rewrite error_prefix_included.
  - intros ans Hf. by rewrite (handleEnroll_no_file _ _ _ _ _ Hf).
  - intros r before after [fl Hf] Hmsg.
    rewrite (handleEnroll_with_file _ _ _ _ _ _ Hf).
    assert (Hm : message (let '(d2, es) :=
                       handleEnroll_resume common (Fulfilled r) rp
                         (setMessage "" (setLoading true d)) in
                     (d2, Request (enroll_request tok common (form d) fl) :: es)).1
                 = enroll_message r) by by destruct rp.
    unfold banner. rewrite Hm, Hmsg.
    rewrite includes_app. by rewrite app_nonempty.
  - intros [fl Hf]. unfold handleEnroll_begin. by rewrite Hf.
Qed.

Lemma enroll_banner_witness :
  is_Some (file jane)
  ∧ banner (handleEnroll (Some "abc") ∅
              (Rejected (rejected_with "Face not detected")) (Fulfilled []) jane).1
    = Some (RedBanner, "Error: Face not detected")
  ∧ banner (handleEnroll (Some "abc") ∅
              (Fulfilled {| enroll_message := "No Error found" |}) (Fulfilled []) jane).1
    = Some (RedBanner, "No Error found").
Proof.
  assert (Hf : is_Some (file jane)) by (exists (mkFile "jane.png"); reflexivity).
  destruct (enroll_banner (Some "abc") ∅ (Fulfilled []) jane) as (Hred & _ & Hsucc & _).
  split; [exact Hf |]. split.
  - exact (Hred (rejected_with "Face not detected") Hf).
  - exact (Hsucc {| enroll_message := "No Error found" |} "No " " found" Hf eq_refl).
Defined.

(** * The chart *)

Section Chart.

Context (toLocaleTimeString : string → string).

Lemma chartData_lookup (evs : list Event) (i : nat) :
  chartData toLocaleTimeString evs !! i
  = (λ ev, {| point_name := "Event " +:+ pretty (i + 1)%nat;
              point_similarity := similarity_or_zero (event_similarity ev);
              point_timestamp := toLocaleTimeString (event_timestamp ev) |})
    <$> take 10 evs !! i.
Proof. unfold chartData. apply list_lookup_imap. Qed.

Lemma chartData_name (evs : list Event) (i : nat) (p : chartPoint) :
  chartData toLocaleTimeString evs !! i = Some p →
  point_name p = "Event " +:+ pretty (i + 1)%nat.
Proof.
  rewrite chartData_lookup. destruct (take 10 evs !! i); [| done].
  by intros [= <-].
Qed.

End Chart.

(** X17. The chart shows the first ten events and nothing else: it has as
    many points as there are events, up to ten; events after the tenth do
    not change it; and the point at position [i] is built from the event
    at position [i]. *)
Theorem chartData_first_ten (toLocaleTimeString : string → string) (evs : list Event) :
  length (chartData toLocaleTimeString evs) = Nat.min 10 (length evs)
  ∧ (∀ more, (10 ≤ length evs)%nat →
             chartData toLocaleTimeString (evs ++ more)
             = chartData toLocaleTimeString evs)
  ∧ (∀ i ev, (i < 10)%nat → evs !! i = Some ev →
             chartData toLocaleTimeString evs !! i
             = Some {| point_name := "Event " +:+ pretty (i + 1)%nat;
                       point_similarity := similarity_or_zero (event_similarity ev);
                       point_timestamp := toLocaleTimeString (event_timestamp ev) |})
  ∧ (∀ i, (10 ≤ i)%nat → chartData toLocaleTimeString evs !! i = None).
Proof.
  split; [| split; [| split]].
  - unfold chartData. by rewrite length_imap, length_take.
  - intros more Hlen. unfold chartData. by rewrite take_app_le.
  - intros i ev Hi Hev. rewrite chartData_lookup.
    by rewrite lookup_take_lt, Hev by done.
  - intros i Hi. rewrite chartData_lookup.
    by rewrite lookup_take_ge by done.
Qed.

(** X18. The points of the chart carry pairwise different names, numbered
    from "Event 1" in the order of the events. *)
Theorem chartData_names_distinct (toLocaleTimeString : string → string) (evs : list Event) :
  NoDup (point_name <$> chartData toLocaleTimeString evs)
  ∧ (point_name <$> chartData toLocaleTimeString evs) !! 0%nat
    = (λ _, "Event 1") <$> evs !! 0%nat.
Proof.
  split.
  - apply NoDup_alt. intros i j x.
    rewrite !list_lookup_fmap.
    destruct (chartData toLocaleTimeString evs !! i) as [p |] eqn:Hp; [| done].
    destruct (chartData toLocaleTimeString evs !! j) as [q |] eqn:Hq; [| done].
    simpl. intros [= <-] [= Heq].
    rewrite (chartData_name _ _ _ _ Hp), (chartData_name _ _ _ _ Hq) in Heq.
    apply (inj (String.app "Event ")) in Heq.
    apply (inj pretty) in Heq. lia.
  - rewrite list_lookup_fmap, chartData_lookup.
    destruct evs as [| ev evs]; reflexivity.
Qed.

(** * Interleavings *)

Lemma handleInputChange_form (k v : string) (d1 d2 : Dash) :
  form d1 = form d2 →
  form (handleInputChange k v d1) = form (handleInputChange k v d2).
Proof.
  intros Heq. unfold handleInputChange. rewrite Heq.
  by repeat (match goal with |- context [String.eqb ?a ?b] =>
                               destruct (String.eqb a b) end).
Qed.

Lemma apply_edits_form (edits : list (string * string)) :
  ∀ d1 d2, form d1 = form d2 →
           form (apply_edits edits d1) = form (apply_edits edits d2).
Proof.
  induction edits as [| [k v] edits IH]; intros d1 d2 Heq; [done |].
  unfold apply_edits in *. simpl. apply IH. by apply handleInputChange_form.
Qed.

(** X19. The inputs stay editable while a submission is in flight. The
    request that went out holds the values from before these edits; if the
    submission fails the edits are kept, together with the held file; if it
    succeeds they are discarded with the rest of the form. *)
Theorem edits_during_flight
    (tok : option string) (common : gmap string string)
    (rp : settled (list Person)) (d : Dash) (fl : File)
    (edits : list (string * string)) :
  file d = Some fl →
  let inflight := apply_edits edits (handleEnroll_begin tok common d).1 in
  (handleEnroll_begin tok common d).2 = Some (enroll_request tok common (form d) fl)
  ∧ loading inflight = true
  ∧ (∀ e, let d' := (handleEnroll_resume common (Rejected e) rp inflight).1 in
          form d' = form (apply_edits edits d) ∧ file d' = Some fl)
  ∧ (∀ r, let d' := (handleEnroll_resume common (Fulfilled r) rp inflight).1 in
          form d' = defaultForm ∧ file d' = None).
Proof.
  intros Hf inflight.
  assert (Hbegin : handleEnroll_begin tok common d
                   = (setMessage "" (setLoading true d),
                      Some (enroll_request tok common (form d) fl))).
  { unfold handleEnroll_begin. by rewrite Hf. }
  assert (Hframe : ∀ edits' d0,
            loading (apply_edits edits' d0) = loading d0).
  { induction edits' as [| [k v] edits' IH]; intros d0; [done |].
    unfold apply_edits in *. simpl. rewrite IH.
    apply handleInputChange_frame. }
  unfold inflight. rewrite Hbegin. simpl.
  split; [done |]. split; [by rewrite Hframe |]. split.
  - intros e. split.
    + by apply apply_edits_form.
    + by rewrite apply_edits_file.
  - intros r. by destruct rp.
Qed.

Lemma edits_during_flight_witness :
  let inflight := apply_edits [("name", "Jane D. Doe")]
                    (handleEnroll_begin (Some "abc") ∅ jane).1 in
  file jane = Some (mkFile "jane.png")
  ∧ name (form (handleEnroll_resume ∅ (Rejected network_error)
                  (Fulfilled []) inflight).1) = "Jane D. Doe"
  ∧ name (form (handleEnroll_resume ∅ (Fulfilled {| enroll_message := "enrolled" |})
                  (Fulfilled []) inflight).1) = "".
Proof.
  intros inflight.
  destruct (edits_during_flight (Some "abc") ∅ (Fulfilled []) jane (mkFile "jane.png")
              [("name", "Jane D. Doe")] eq_refl)
    as (_ & _ & Hfail & Hok).
  split; [reflexivity |]. split.
  - destruct (Hfail network_error) as [Hform _].
    fold inflight in Hform. by rewrite Hform.
  - destruct (Hok {| enroll_message := "enrolled" |}) as [Hform _].
    fold inflight in Hform. by rewrite Hform.
Defined.

(** X20. The two fetches of the dashboard's entry effect are independent:
    the roster afterwards is the fetched one if that fetch succeeded and
    the old one otherwise, whatever the events fetch did, and the same for
    the events; the form, the held file, the message and the in-flight flag
    are not touched. *)
Theorem useEffect_snapshots_independent
    (tok : option string) (common : gmap string string)
    (rp : settled (list Person)) (re : settled (list Event)) (d : Dash) :
  let d' := (Dashboard_useEffect tok common rp re d).1 in
  persons d' = match rp with Fulfilled ps => ps | Rejected _ => persons d end
  ∧ events d' = match re with Fulfilled es => es | Rejected _ => events d end
  ∧ form d' = form d ∧ file d' = file d
  ∧ message d' = message d ∧ loading d' = loading d.
Proof. by destruct rp, re. Qed.
